(** * pip-compile: the compilation pipeline of [piptools/scripts/compile.py]

    A shallow embedding of the [cli] command and of the module-level pip
    version gate, with the properties of the index directive loop, the
    output ordering, the annotations and the control flow of the pipeline.

    Python byte strings are [string]; [print] and the [log.*] calls are
    events of a trace; [sys.exit] and exceptions end a run early. The
    collaborators that live in other modules ([PyPIRepository],
    [parse_requirements], [Resolver], [format_requirement]) are fields of a
    record the pipeline is run against. *)

From Stdlib Require Import ZArith Ascii String.
From stdpp Require Import base option list sorting strings gmap.


(** ** Python string helpers *)

Module Py.

(** [s.lower()] on a byte string: only the ASCII letters [A]..[Z] change. *)
Definition lower_ascii (c : ascii) : ascii :=
  let n := nat_of_ascii c in
  if (65 <=? n)%nat && (n <=? 90)%nat then ascii_of_nat (n + 32) else c.

Fixpoint lower (s : string) : string :=
  match s with
  | EmptyString => EmptyString
  | String c s' => String (lower_ascii c) (lower s')
  end.

(** [sep.join(l)] *)
Fixpoint join (sep : string) (l : list string) : string :=
  match l with
  | [] => ""
  | [x] => x
  | x :: l' => x +:+ sep +:+ join sep l'
  end.

(** [bool(s)] for a string: the empty string is falsy. *)
Definition truthy (s : string) : bool :=
  match s with EmptyString => false | _ => true end.

(** [s.split(sep)] for a one-character separator; [cur] is the piece being
    read, in reverse. *)
Fixpoint split_go (sep : ascii) (cur : string) (s : string) : list string :=
  match s with
  | EmptyString => [String.rev cur]
  | String c s' =>
      if Ascii.eqb c sep then String.rev cur :: split_go sep "" s'
      else split_go sep (String c cur) s'
  end.

Definition split (sep : ascii) (s : string) : list string := split_go sep "" s.

(** [os.path.basename(p)] (posixpath): what follows the last slash. *)
Definition basename (p : string) : string :=
  List.last (split "/"%char p) "".

End Py.

(** ** The index directive loop (lines 98-102)

    [zip(chain(['--index-url'], cycle(['--extra-index-url'])), index_urls)]
    pairs the entry at position 0 with [--index-url] and every later entry
    with [--extra-index-url]. *)

(** The first [n] items of [chain(['--index-url'], cycle(['--extra-index-url']))]. *)
Definition directive_labels (n : nat) : list string :=
  take n ("--index-url" :: replicate n "--extra-index-url").

Definition zip_directives (index_urls : list string) : list (string * string) :=
  zip (directive_labels (length index_urls)) index_urls.

(** The loop body, for the pairs still to visit: an entry equal to
    [DEFAULT_INDEX_URL] is skipped ([continue]); for any other entry the two
    arguments of ['{} {}'.format(directive, repository.finder.index_urls[0])]
    are produced. [first] is [repository.finder.index_urls[0]]. *)
Fixpoint directive_loop (DEFAULT_INDEX_URL first : string)
    (pairs : list (string * string)) : list (string * string) :=
  match pairs with
  | [] => []
  | (directive, index_url) :: rest =>
      if String.eqb index_url DEFAULT_INDEX_URL
      then directive_loop DEFAULT_INDEX_URL first rest
      else (directive, first) :: directive_loop DEFAULT_INDEX_URL first rest
  end.

(** The (directive, URL) pairs logged by the loop. With an empty
    [index_urls] the body never runs and [index_urls[0]] is never read. *)
Definition index_directives (DEFAULT_INDEX_URL : string)
    (index_urls : list string) : list (string * string) :=
  match index_urls with
  | [] => []
  | first :: _ =>
      directive_loop DEFAULT_INDEX_URL first (zip_directives index_urls)
  end.

(** ['{} {}'.format(directive, url)] *)
Definition format_directive (d : string * string) : string :=
  d.1 +:+ " " +:+ d.2.

Definition index_directive_lines (DEFAULT_INDEX_URL : string)
    (index_urls : list string) : list string :=
  format_directive <$> index_directives DEFAULT_INDEX_URL index_urls.

(** The value of [PyPIRepository.DEFAULT_INDEX_URL] used in the examples. *)
Definition pypi : string := "https://pypi.python.org/simple".

(** ** [sorted(iterable, key=...)]

    Python's [sorted] is a stable sort that compares keys with [<] only. It
    is embedded as a stable insertion sort: [x] is put in front of the first
    element whose key is not smaller than its own. *)

Section sorted.
Context {A K : Type} (key : A → K) (leb : K → K → bool).

Fixpoint sorted_insert (x : A) (l : list A) : list A :=
  match l with
  | [] => [x]
  | y :: l' =>
      if leb (key x) (key y) then x :: y :: l' else y :: sorted_insert x l'
  end.

Definition sorted (l : list A) : list A := foldr sorted_insert [] l.
End sorted.

(** ** Resolved requirements and their sort key (line 86) *)

(** What [cli] reads of a pip [InstallRequirement]: [r.name], [r.editable]
    and [str(r.req)]. *)
Record InstallRequirement := {
  name : string;
  editable : bool;
  req : string;
}.

Global Instance InstallRequirement_eq_dec : EqDecision InstallRequirement.
Proof. solve_decision. Defined.

(** [lambda r: (not r.editable, str(r.req).lower())] *)
Definition sort_key (r : InstallRequirement) : bool * string :=
  (negb (editable r), Py.lower (req r)).

(** [a <= b] on [(bool, str)] tuples: the first components decide unless they
    are equal ([False < True]); strings compare by code point. *)
Definition key_leb (a b : bool * string) : bool :=
  if Bool.eqb a.1 b.1 then String.leb a.2 b.2 else negb a.1.

Definition formatted_results (results : list InstallRequirement)
    : list InstallRequirement :=
  sorted sort_key key_leb results.

(** ** Annotations (lines 135-139) *)

(** [rev_deps]: a dict from a package name to its parents, each value listed
    in the iteration order of the Python collection. *)
Abbreviation RevDeps := (gmap string (list string)).

(** [', '.join(sorted(rev_deps.get(result.name, [])))], then the ['via ']
    prefix when that text is not empty. *)
Definition annotation_text (rev_deps : RevDeps) (result : InstallRequirement)
    : string :=
  let annotation :=
    Py.join ", " (sorted id String.leb (default [] (rev_deps !! name result))) in
  if Py.truthy annotation then "via " +:+ annotation else annotation.

(** The [annotation] variable handed to [format_requirement]: [None] unless
    [annotate] is set, in which case [rev_deps] is bound. *)
Definition annotation_of (rev_deps : option RevDeps)
    (result : InstallRequirement) : option string :=
  match rev_deps with
  | Some rd => Some (annotation_text rd result)
  | None => None
  end.

(** Modelled from the spec: [format_requirement] of [piptools.utils] is not
    part of the sources at hand. Section 4.4: each rendered line is the
    requirement text, suffixed with four spaces, [#] and the annotation when
    the annotation is non-empty and annotations are enabled. The annotation
    it receives from [cli] already starts with [via]. *)
Definition spec_format_requirement (result : InstallRequirement)
    (annotation : option string) : string :=
  match annotation with
  | Some a => if Py.truthy a then req result +:+ "    # " +:+ a else req result
  | None => req result
  end.

(** ** Runs: a trace of events and how the run ended *)

Inductive Level := Debug | Info | Warning | Error.

(** The collaborators [cli] calls into. *)
Inductive Stage :=
  | NewRepository
  | ParseRequirements
  | Resolve
  | ReverseDependencies.

Inductive Event :=
  | EPrint (text : string)
  | ESetVerbose (verbose : bool)
  | ELog (level : Level) (message : string) (fg : option string)
  | ECall (stage : Stage).

Inductive Exn :=
  | PipToolsError (message : string)
  | ValueError (message : string)
  | OtherError (message : string).

Inductive Outcome (A : Type) :=
  | Returned (a : A)
  | Exited (code : Z)
  | Raised (e : Exn).
Global Arguments Returned {A} a.
Global Arguments Exited {A} code.
Global Arguments Raised {A} e.

Definition Run (A : Type) : Type := list Event * Outcome A.

Global Instance Run_ret : MRet Run := λ A a, ([], Returned a).

Global Instance Run_bind : MBind Run := λ A B k m,
  match m.2 with
  | Returned a => (m.1 ++ (k a).1, (k a).2)
  | Exited code => (m.1, Exited code)
  | Raised e => (m.1, Raised e)
  end.

Definition emit (e : Event) : Run unit := ([e], Returned tt).
Definition sys_exit {A} (code : Z) : Run A := ([], Exited code).
Definition raise {A} (e : Exn) : Run A := ([], Raised e).

(** A collaborator's result, or the exception it raised. *)
Definition lift {A} (r : Exn + A) : Run A :=
  match r with
  | inl e => raise e
  | inr a => mret a
  end.

(** [try: m  except PipToolsError as e: handler(str(e))] *)
Definition except_PipToolsError {A} (m : Run A) (handler : string → Run A)
    : Run A :=
  match m.2 with
  | Raised (PipToolsError message) => (m.1 ++ (handler message).1, (handler message).2)
  | _ => m
  end.

(** [for x in l: body(x)] *)
Fixpoint for_ {A} (l : list A) (body : A → Run unit) : Run unit :=
  match l with
  | [] => mret tt
  | x :: l' => body x;; for_ l' body
  end.

Definition when (b : bool) (m : Run unit) : Run unit :=
  if b then m else mret tt.

Definition print (text : string) : Run unit := emit (EPrint text).
Definition log_debug (message : string) : Run unit := emit (ELog Debug message None).
Definition log_info (message : string) (fg : option string) : Run unit :=
  emit (ELog Info message fg).
Definition log_warning (message : string) : Run unit := emit (ELog Warning message None).
Definition log_error (message : string) : Run unit := emit (ELog Error message None).
Definition call (stage : Stage) : Run unit := emit (ECall stage).

(** The output document: the messages of the [log.info] calls, in order. *)
Definition info_line (e : Event) : option string :=
  match e with
  | ELog Info message _ => Some message
  | _ => None
  end.

Definition output_document (trace : list Event) : list string :=
  omap info_line trace.

(** The stages that ran, in order. *)
Definition stage_of (e : Event) : option Stage :=
  match e with
  | ECall stage => Some stage
  | _ => None
  end.

Definition stages_run (trace : list Event) : list Stage := omap stage_of trace.

(** ** The pip version gate (lines 9-12) *)

Module Version.

Definition is_space (c : ascii) : bool :=
  let n := nat_of_ascii c in
  (n =? 32)%nat || ((9 <=? n)%nat && (n <=? 13)%nat).

Fixpoint lstrip (s : string) : string :=
  match s with
  | EmptyString => EmptyString
  | String c s' => if is_space c then lstrip s' else s
  end.

Definition strip (s : string) : string :=
  String.rev (lstrip (String.rev (lstrip s))).

Definition digit (c : ascii) : option Z :=
  let n := nat_of_ascii c in
  if (48 <=? n)%nat && (n <=? 57)%nat then Some (Z.of_nat (n - 48)) else None.

Fixpoint digits (acc : Z) (s : string) : option Z :=
  match s with
  | EmptyString => Some acc
  | String c s' => d ← digit c; digits (10 * acc + d)%Z s'
  end.

Definition unsigned (s : string) : option Z :=
  match s with
  | EmptyString => None
  | _ => digits 0 s
  end.

(** [int(s)] on the grammar Python 2 and 3 share: surrounding white space,
    an optional sign, one or more decimal digits. [None] is [ValueError]. *)
Definition int (s : string) : option Z :=
  match strip s with
  | String "-"%char s' => Z.opp <$> unsigned s'
  | String "+"%char s' => unsigned s'
  | s' => unsigned s'
  end.

(** [tuple(int(digit) for digit in version.split('.')[:2])] *)
Definition version_tuple (version : string) : option (list Z) :=
  mapM int (take 2 (Py.split "."%char version)).

(** [a >= b] on tuples of integers: the first position where they differ
    decides; a proper prefix is smaller. *)
Fixpoint tuple_geb (a b : list Z) : bool :=
  match a, b with
  | _, [] => true
  | [], _ :: _ => false
  | x :: a', y :: b' => if (x =? y)%Z then tuple_geb a' b' else (y <? x)%Z
  end.

Definition upgrade_message (version : string) : string :=
  "pip-compile requires at least version 6.1 of pip (" +:+ version +:+
  " found), perhaps run `pip install --upgrade pip`?".

End Version.

(** ** The command (lines 40-143) *)

(** The parameters of [cli]. [index_url] is [None] when the option is not
    given. *)
Record Options := {
  verbose : bool;
  dry_run : bool;
  pre : bool;
  rebuild : bool;
  find_links : list string;
  index_url : option string;
  extra_index_url : list string;
  no_header : bool;
  annotate : bool;
  src_file : string;
}.

(** [repository.finder] *)
Record Finder := {
  finder_index_urls : list string;
  finder_find_links : list string;
}.

(** The dependency cache the resolver has populated: a package identity
    (name, version) with the requirement strings it declares. *)
Abbreviation DependencyCache := (gmap (string * string) (list string)).

(** What [cli] imports from the rest of the package and from pip. A
    constraint is an [InstallRequirement] too. [parse_requirements] is given
    the finder of the repository, which is a mutable object: pip applies the
    option lines of the file ([--index-url], [--extra-index-url],
    [--find-links]) to it, so the call hands back, with the constraints, the
    finder as the parsing leaves it; the resolver and the index directive
    loop read that one. [resolve] stands for
    [Resolver(constraints, repository, prereleases, clear_caches).resolve()]
    and also hands back the dependency cache the resolver then holds, which
    [resolver.reverse_dependencies] reads. *)
Record Collaborators := {
  DEFAULT_INDEX_URL : string;
  new_finder : Finder;
  parse_requirements : string → Finder →
                       Exn + (list InstallRequirement * Finder);
  resolve : list InstallRequirement → Finder → bool → bool →
            Exn + (list InstallRequirement * DependencyCache);
  reverse_dependencies : DependencyCache → list InstallRequirement → RevDeps;
  format_requirement : InstallRequirement → option string → string;
}.

(** Lines 55-58: [--index-url] replaces the finder's indexes when it is given
    and not empty; the extra indexes and the find-links are appended. *)
Definition configure_finder (w : Collaborators) (o : Options) : Finder :=
  let index_urls :=
    match index_url o with
    | Some u => if Py.truthy u then [u] else finder_index_urls (new_finder w)
    | None => finder_index_urls (new_finder w)
    end in
  {| finder_index_urls := index_urls ++ extra_index_url o;
     finder_find_links := finder_find_links (new_finder w) ++ find_links o |}.

(** Lines 91-97 *)
Definition header (src_file : string) (blue : option string) : Run unit :=
  log_info "#" blue;;
  log_info "# This file is autogenerated by pip-compile" blue;;
  log_info ("# Make changes in " +:+ Py.basename src_file +:+
            ", then run this to update:") blue;;
  log_info "#" blue;;
  log_info ("#    pip-compile " +:+ Py.basename src_file) blue;;
  log_info "#" blue.

(** Lines 84-143: everything after the resolver has returned. *)
Definition render (w : Collaborators) (o : Options) (finder : Finder)
    (results : list InstallRequirement) (cache : DependencyCache) : Run unit :=
  log_debug "";;
  let formatted := formatted_results results in
  let blue := if verbose o then Some "blue" else None in
  when (negb (no_header o)) (header (src_file o) blue);;
  for_ (index_directives (DEFAULT_INDEX_URL w) (finder_index_urls finder))
       (λ d, log_info (format_directive d) blue);;
  rev_deps ← (if annotate o
              then call ReverseDependencies;;
                   mret (Some (reverse_dependencies w cache results))
              else mret None);
  for_ formatted
       (λ result,
          log_info (format_requirement w result (annotation_of rev_deps result))
                   blue);;
  when (dry_run o) (log_warning "Dry-run, so nothing updated.").

(** Lines 43-68: the logger, the guard on [src_file], the repository and its
    finder. *)
Definition setup (w : Collaborators) (o : Options) : Run Finder :=
  emit (ESetVerbose (verbose o));;
  when (negb (Py.truthy (src_file o)))
       (log_warning "No input files to process.";; sys_exit 2);;
  call NewRepository;;
  let finder := configure_finder w o in
  log_debug "Using indexes:";;
  for_ (finder_index_urls finder) (λ u, log_debug ("  " +:+ u));;
  when (bool_decide (finder_find_links finder ≠ []))
       (log_debug "";;
        log_debug "Configuration:";;
        for_ (finder_find_links finder) (λ f, log_debug ("  -f " +:+ f)));;
  mret finder.

(** Lines 73-75: the constraints, and the finder after the parsing. *)
Definition collect (w : Collaborators) (o : Options) (finder : Finder)
    : Run (list InstallRequirement * Finder) :=
  call ParseRequirements;;
  lift (parse_requirements w (src_file o) finder).

(** Lines 77-82 *)
Definition resolving (w : Collaborators) (o : Options) (finder : Finder)
    (constraints : list InstallRequirement)
    : Run (list InstallRequirement * DependencyCache) :=
  except_PipToolsError
    (call Resolve;;
     lift (resolve w constraints finder (pre o) (rebuild o)))
    (λ message, log_error message;; sys_exit 2).

Definition cli (w : Collaborators) (o : Options) : Run unit :=
  finder ← setup w o;
  parsed ← collect w o finder;
  resolved ← resolving w o parsed.2 parsed.1;
  render w o parsed.2 resolved.1 resolved.2.

(** The module as the interpreter runs it: the version gate, then the
    command. *)
Definition main (pip_version : string) (w : Collaborators) (o : Options)
    : Run unit :=
  match Version.version_tuple pip_version with
  | None => raise (ValueError pip_version)
  | Some version =>
      if negb (Version.tuple_geb version [6; 1]%Z)
      then print (Version.upgrade_message pip_version);; sys_exit 4
      else cli w o
  end.

(** ** Variations of a run and sample data *)

(** The same collaborators, except that the dependency cache the resolver
    ends up with is [f] of what it was. *)
Definition with_cache (f : DependencyCache → DependencyCache)
    (w : Collaborators) : Collaborators :=
  {| DEFAULT_INDEX_URL := DEFAULT_INDEX_URL w;
     new_finder := new_finder w;
     parse_requirements := parse_requirements w;
     resolve := λ constraints finder pre rebuild,
       match resolve w constraints finder pre rebuild with
       | inl e => inl e
       | inr (results, cache) => inr (results, f cache)
       end;
     reverse_dependencies := reverse_dependencies w;
     format_requirement := format_requirement w |}.

Definition set_dry_run (b : bool) (o : Options) : Options :=
  {| verbose := verbose o; dry_run := b; pre := pre o; rebuild := rebuild o;
     find_links := find_links o; index_url := index_url o;
     extra_index_url := extra_index_url o; no_header := no_header o;
     annotate := annotate o; src_file := src_file o |}.

(** The warning of line 143. *)
Definition dry_run_warning : Event :=
  ELog Warning "Dry-run, so nothing updated." None.

(** Spec wording of the annotation text, for comparison with
    [annotation_text]: the parents sorted case-insensitively, joined with a
    comma and a space. *)
Definition case_insensitive_annotation (parents : list string) : string :=
  Py.join ", " (sorted Py.lower String.leb parents).

Definition django : InstallRequirement :=
  {| name := "django"; editable := false; req := "django==1.8" |}.

Definition toolbar : InstallRequirement :=
  {| name := "django-debug-toolbar"; editable := false;
     req := "django-debug-toolbar==1.3.0" |}.

Definition sample_cache : DependencyCache :=
  {[ ("django-debug-toolbar", "1.3.0") := ["django>=1.7"] ]}.

(** Collaborators for the examples: the resolver's answer and the parents of
    [django] are given. *)
Definition sample_world
    (answer : Exn + (list InstallRequirement * DependencyCache))
    (parents : list string) : Collaborators :=
  {| DEFAULT_INDEX_URL := pypi;
     new_finder := {| finder_index_urls := [pypi]; finder_find_links := [] |};
     parse_requirements := λ _ finder,
       inr ([ {| name := "django"; editable := false; req := "django>=1.8" |};
              {| name := "django-debug-toolbar"; editable := false;
                 req := "django-debug-toolbar" |} ], finder);
     resolve := λ _ _ _ _, answer;
     reverse_dependencies := λ _ _, {[ "django" := parents ]};
     format_requirement := spec_format_requirement |}.

Definition sample_options (annotate : bool) : Options :=
  {| verbose := false; dry_run := false; pre := false; rebuild := false;
     find_links := []; index_url := None; extra_index_url := ["https://x"];
     no_header := false; annotate := annotate;
     src_file := "requirements.in" |}.

(** ** Further variations of a run *)

(** The messages of the header block of lines 92-97. *)
Definition header_lines (src_file : string) : list string :=
  [ "#";
    "# This file is autogenerated by pip-compile";
    "# Make changes in " +:+ Py.basename src_file +:+
      ", then run this to update:";
    "#";
    "#    pip-compile " +:+ Py.basename src_file;
    "#" ].

Definition set_verbose (b : bool) (o : Options) : Options :=
  {| verbose := b; dry_run := dry_run o; pre := pre o; rebuild := rebuild o;
     find_links := find_links o; index_url := index_url o;
     extra_index_url := extra_index_url o; no_header := no_header o;
     annotate := annotate o; src_file := src_file o |}.

(** An event without what the [verbose] flag sets: the flag of the logger and
    the colour of a message. *)
Definition plain (e : Event) : Event :=
  match e with
  | ESetVerbose _ => ESetVerbose false
  | ELog level message _ => ELog level message None
  | _ => e
  end.

(** [c in s] *)
Fixpoint contains (c : ascii) (s : string) : bool :=
  match s with
  | EmptyString => false
  | String c' s' => Ascii.eqb c' c || contains c s'
  end.

(** Two runs that differ at most in what [plain] erases. *)
Definition same_plain {A} (m m' : Run A) : Prop :=
  plain <$> m.1 = plain <$> m'.1 ∧ m.2 = m'.2.

(** The colour an event is logged with under a given [verbose] flag:
    [log.info] messages are blue exactly in verbose mode, the other messages
    are logged without [fg]. *)
Definition coloured (verbose : bool) (e : Event) : Prop :=
  match e with
  | ELog Info _ fg => fg = if verbose then Some "blue" else None
  | ELog _ _ fg => fg = None
  | _ => True
  end.

(** * Properties *)

(** ** The index directive loop *)

Section index_directives.
Variable D : string.

Lemma directive_labels_S (n : nat) :
  directive_labels (S n) = "--index-url" :: replicate n "--extra-index-url".
Proof.
  unfold directive_labels.
  rewrite firstn_cons, take_replicate. do 2 f_equal. lia.
Qed.

Lemma zip_directives_cons (u : string) (us : list string) :
  zip_directives (u :: us) =
  ("--index-url", u) :: zip (replicate (length us) "--extra-index-url") us.
Proof. unfold zip_directives. simpl length. by rewrite directive_labels_S. Qed.

(** The entries after the first: one [--extra-index-url] pair for each
    entry that is not the default index, duplicates included. *)
Lemma directive_loop_extras (first : string) (us : list string) (n : nat) :
  length us ≤ n →
  (directive_loop D first (zip (replicate n "--extra-index-url") us)).*1 =
  replicate (length (filter (λ u, u ≠ D) us)) "--extra-index-url".
Proof.
  revert n. induction us as [|u us IH]; intros n Hn; [by destruct n|].
  destruct n as [|n]; simpl in Hn; [lia|]. simpl.
  rewrite filter_cons. destruct (String.eqb_spec u D) as [->|Hne].
  - rewrite decide_False by (by intros ?). apply IH. lia.
  - rewrite decide_True by done. simpl. f_equal. apply IH. lia.
Qed.

Lemma directive_loop_urls (first : string) (pairs : list (string * string)) :
  (directive_loop D first pairs).*2 =
  replicate (length (directive_loop D first pairs)) first.
Proof.
  induction pairs as [|[d u] pairs IH]; [done|]. simpl.
  destruct (String.eqb u D); [done|]. rewrite fmap_cons. simpl. by f_equal.
Qed.
End index_directives.

(** The directives logged for a non-empty [index_urls], by label. *)
Lemma index_directives_labels (D u : string) (us : list string) :
  (index_directives D (u :: us)).*1 =
  (if decide (u = D) then [] else ["--index-url"]) ++
  replicate (length (filter (λ v, v ≠ D) us)) "--extra-index-url".
Proof.
  unfold index_directives. rewrite zip_directives_cons. simpl.
  destruct (String.eqb_spec u D) as [->|Hne].
  - rewrite decide_True by done. by apply directive_loop_extras.
  - rewrite decide_False by done. rewrite fmap_cons. simpl. f_equal.
    by apply directive_loop_extras.
Qed.

(** X18: the first half of what the emitter is meant to do holds: an
    [--index-url] directive is logged exactly when the first entry differs
    from the default index. *)
Lemma primary_iff_first_differs (D : string) (index_urls : list string) :
  "--index-url" ∈ (index_directives D index_urls).*1 ↔
  ∃ u us, index_urls = u :: us ∧ u ≠ D.
Proof.
  destruct index_urls as [|u us].
  - split; [by intros ?%elem_of_nil | by intros (? & ? & ? & ?)].
  - rewrite index_directives_labels, elem_of_app, elem_of_replicate.
    destruct (decide (u = D)) as [->|Hne]; split.
    + intros [?%elem_of_nil|[? _]]; done.
    + intros (? & ? & [= <- <-] & ?); done.
    + eauto.
    + intros _. left. apply list_elem_of_here.
Qed.

(** C1 (amended): the loop logs one directive for every entry of
    [index_urls] that differs from the default index, in order and without
    any deduplication: the entry at position 0 is labelled [--index-url],
    every later entry [--extra-index-url], and an entry listed [k] times
    yields [k] directives. *)
Theorem index_directives_one_per_entry (D : string) (index_urls : list string) :
  (index_directives D index_urls).*1 =
    match index_urls with
    | [] => []
    | u :: us =>
        (if decide (u = D) then [] else ["--index-url"]) ++
        replicate (length (filter (λ v, v ≠ D) us)) "--extra-index-url"
    end
  ∧ length (index_directives D index_urls) =
    length (filter (λ v, v ≠ D) index_urls).
Proof.
  destruct index_urls as [|u us]; [done|].
  pose proof (index_directives_labels D u us) as Hl. split; [done|].
  rewrite <-(length_fmap fst), Hl, length_app, length_replicate, filter_cons.
  destruct (decide (u = D)) as [->|Hne].
  - by rewrite decide_False by (by intros ?).
  - by rewrite decide_True by done.
Qed.

(** C1, as stated, fails: a URL given twice is logged twice. *)
Lemma index_directives_repeat_url :
  index_directive_lines pypi ["https://x"; "https://x"] =
    ["--index-url https://x"; "--extra-index-url https://x"]
  ∧ ¬ NoDup (index_directives pypi ["https://x"; "https://x"]).*2.
Proof.
  split; [reflexivity|].
  intros [Hnotin _]%NoDup_cons. apply Hnotin. apply list_elem_of_here.
Qed.

(** C2: with the default index first, the directive logged for the second
    entry names [index_urls[0]], which is the default index. *)
Theorem default_index_logged :
  index_directive_lines pypi [pypi; "https://x"] =
    ["--extra-index-url https://pypi.python.org/simple"].
Proof. reflexivity. Qed.

(** C3 (amended): for [[default; "https://x"; "https://x"; "https://y"]]
    the loop logs three directives, one for each entry after the skipped
    default, all labelled [--extra-index-url]: the duplicate is kept and the
    [--index-url] label went to the skipped entry. *)
Theorem example_index_config_labels (D : string) :
  D ≠ "https://x" → D ≠ "https://y" →
  (index_directives D [D; "https://x"; "https://x"; "https://y"]).*1 =
    ["--extra-index-url"; "--extra-index-url"; "--extra-index-url"].
Proof.
  intros Hx Hy. rewrite index_directives_labels.
  rewrite decide_True by done.
  rewrite !filter_cons, !decide_True by done. done.
Qed.

Lemma example_index_config_labels_witness :
  (index_directives pypi [pypi; "https://x"; "https://x"; "https://y"]).*1 =
    ["--extra-index-url"; "--extra-index-url"; "--extra-index-url"].
Proof. apply (example_index_config_labels pypi); discriminate. Defined.

(** C3, as stated, fails: the example does not log the two lines
    [--index-url https://x] and [--extra-index-url https://y]. *)
Lemma example_index_config_lines :
  index_directive_lines pypi [pypi; "https://x"; "https://x"; "https://y"] ≠
    ["--index-url https://x"; "--extra-index-url https://y"].
Proof. discriminate. Qed.

(** ** [sorted]: a stable sort *)

Section sorted_spec.
Context {A K : Type} `{EqDecision K} (key : A → K) (leb : K → K → bool).
Hypothesis leb_total : ∀ a b, leb a b = true ∨ leb b a = true.
Hypothesis leb_trans : ∀ a b c, leb a b = true → leb b c = true → leb a c = true.

Let R (x y : A) : Prop := leb (key x) (key y) = true.

Lemma sorted_insert_Permutation (x : A) (l : list A) :
  sorted_insert key leb x l ≡ₚ x :: l.
Proof.
  induction l as [|y l IH]; [done|]. simpl.
  destruct (leb (key x) (key y)); [done|].
  rewrite IH. apply Permutation_swap.
Qed.

Lemma sorted_Permutation (l : list A) : sorted key leb l ≡ₚ l.
Proof.
  induction l as [|x l IH]; [done|]. simpl.
  by rewrite sorted_insert_Permutation, IH.
Qed.

Lemma sorted_insert_StronglySorted (x : A) (l : list A) :
  StronglySorted R l → StronglySorted R (sorted_insert key leb x l).
Proof.
  induction 1 as [|y l Hl IH Hy]; simpl.
  - repeat constructor.
  - destruct (leb (key x) (key y)) eqn:Hxy.
    + constructor; [by constructor|]. constructor; [done|].
      eapply Forall_impl; [exact Hy|]. intros z Hz. by eapply leb_trans.
    + constructor; [done|].
      rewrite sorted_insert_Permutation. constructor; [|done].
      destruct (leb_total (key x) (key y)); [congruence|done].
Qed.

Lemma sorted_StronglySorted (l : list A) : StronglySorted R (sorted key leb l).
Proof.
  induction l as [|x l IH]; simpl; [constructor|].
  by apply sorted_insert_StronglySorted.
Qed.

(** Stability: for every key, the elements that carry it come out in the
    order they went in. *)
Lemma sorted_insert_stable (k : K) (x : A) (l : list A) :
  filter (λ y, key y = k) (sorted_insert key leb x l) =
  filter (λ y, key y = k) (x :: l).
Proof.
  induction l as [|y l IH]; [done|]. simpl.
  destruct (leb (key x) (key y)) eqn:Hxy; [done|].
  rewrite (filter_cons _ y), IH, !filter_cons.
  destruct (decide (key y = k)) as [Hy|Hy], (decide (key x = k)) as [Hx|Hx];
    try done.
  destruct (leb_total (key x) (key x)); congruence.
Qed.

Lemma sorted_stable (k : K) (l : list A) :
  filter (λ y, key y = k) (sorted key leb l) = filter (λ y, key y = k) l.
Proof.
  induction l as [|x l IH]; [done|]. simpl.
  by rewrite sorted_insert_stable, !filter_cons, IH.
Qed.

(** In a sorted list an earlier element is never above a later one. *)
Lemma sorted_lookup_le (l : list A) (i j : nat) (a b : A) :
  i < j → sorted key leb l !! i = Some a → sorted key leb l !! j = Some b →
  leb (key a) (key b) = true.
Proof.
  generalize (sorted_StronglySorted l). generalize (sorted key leb l).
  intros s Hs. revert i j. induction Hs as [|y s Hs IH Hy]; intros i j Hij Ha Hb.
  - by rewrite lookup_nil in Ha.
  - destruct j as [|j]; [lia|]. destruct i as [|i]; simpl in *.
    + injection Ha as <-. rewrite Forall_forall in Hy. apply Hy.
      by eapply list_elem_of_lookup_2.
    + apply (IH i j); [lia|done..].
Qed.
End sorted_spec.

(** ** The output ordering (line 86) *)

Lemma string_leb_trans (a b c : string) :
  String.leb a b = true → String.leb b c = true → String.leb a c = true.
Proof. rewrite <-!Is_true_true. apply (transitivity (R:=String.le)). Qed.

Lemma key_leb_total (a b : bool * string) :
  key_leb a b = true ∨ key_leb b a = true.
Proof.
  destruct a as [[] s], b as [[] t]; unfold key_leb; simpl; auto;
    apply String.leb_total.
Qed.

Lemma key_leb_trans (a b c : bool * string) :
  key_leb a b = true → key_leb b c = true → key_leb a c = true.
Proof.
  destruct a as [[] s], b as [[] t], c as [[] u]; unfold key_leb; simpl;
    try done; apply string_leb_trans.
Qed.

(** C4: the sorted results are the resolved set itself, reordered; an
    editable entry never comes after a non-editable one; two entries of the
    same group are in non-decreasing order of their lower-cased requirement
    text; and the entries with one and the same sort key keep the order they
    had in the input. *)
Theorem formatted_results_ordered (results : list InstallRequirement) :
  formatted_results results ≡ₚ results
  ∧ (∀ (i j : nat) (a b : InstallRequirement),
       i < j →
       formatted_results results !! i = Some a →
       formatted_results results !! j = Some b →
       (editable b = true → editable a = true)
       ∧ (editable a = editable b →
          String.leb (Py.lower (req a)) (Py.lower (req b)) = true))
  ∧ (∀ k : bool * string,
       filter (λ r, sort_key r = k) (formatted_results results) =
       filter (λ r, sort_key r = k) results).
Proof.
  split; [|split].
  - apply sorted_Permutation.
  - intros i j a b Hij Ha Hb.
    pose proof (sorted_lookup_le sort_key key_leb key_leb_total key_leb_trans
                  results i j a b Hij Ha Hb) as Hle.
    unfold key_leb, sort_key in Hle. simpl in Hle.
    destruct (editable a), (editable b); simpl in Hle; split; try done.
  - intros k. apply sorted_stable, key_leb_total.
Qed.

(** ** Annotations (lines 135-139) *)

Lemma truthy_false (s : string) : Py.truthy s = false → s = "".
Proof. by destruct s. Qed.

(** C5 (amended): with annotations enabled, the annotation of a package is
    made of its parents' names sorted by code point (upper case before lower
    case), joined with a comma and a space and prefixed with [via]; it is
    the empty string when that text is empty. A package without parents has
    the empty annotation and its line is the bare requirement text. *)
Theorem annotation_text_sorted (rd : RevDeps) (r : InstallRequirement) :
  ∃ names : list string,
    names ≡ₚ default [] (rd !! name r)
    ∧ StronglySorted (λ a b, String.leb a b = true) names
    ∧ annotation_text rd r =
        (if Py.truthy (Py.join ", " names)
         then "via " +:+ Py.join ", " names else "")
    ∧ (default [] (rd !! name r) = [] →
       annotation_text rd r = ""
       ∧ spec_format_requirement r (annotation_of (Some rd) r) = req r).
Proof.
  exists (sorted id String.leb (default [] (rd !! name r))).
  split; [apply sorted_Permutation|].
  split; [apply (sorted_StronglySorted id String.leb);
          [apply String.leb_total | apply string_leb_trans]|].
  split.
  - unfold annotation_text.
    destruct (Py.truthy _) eqn:Ht; [done|]. by apply truthy_false.
  - intros Hnone. unfold annotation_of, annotation_text. by rewrite Hnone.
Qed.

(** C5, as stated, fails: the parents [a] and [B] are listed as [B, a], not
    in the case-insensitive order [a, B]. *)
Lemma annotation_case_sensitive :
  annotation_text {[ "django" := ["a"; "B"] ]} django = "via B, a"
  ∧ case_insensitive_annotation ["a"; "B"] = "a, B"
  ∧ annotation_text {[ "django" := ["a"; "B"] ]} django ≠
      "via " +:+ case_insensitive_annotation ["a"; "B"].
Proof. split; [|split]; [vm_compute; reflexivity..|]. vm_compute. discriminate. Qed.

(** ** Runs *)

Lemma bind_returned {A B} (m : Run A) (k : A → Run B) (a : A) :
  m.2 = Returned a → m ≫= k = (m.1 ++ (k a).1, (k a).2).
Proof. intros H. unfold mbind, Run_bind. by rewrite H. Qed.

Lemma bind_exited {A B} (m : Run A) (k : A → Run B) (code : Z) :
  m.2 = Exited code → m ≫= k = (m.1, Exited code).
Proof. intros H. unfold mbind, Run_bind. by rewrite H. Qed.

Lemma bind_raised {A B} (m : Run A) (k : A → Run B) (e : Exn) :
  m.2 = Raised e → m ≫= k = (m.1, Raised e).
Proof. intros H. unfold mbind, Run_bind. by rewrite H. Qed.

Lemma bind_ext {A B} (m : Run A) (k k' : A → Run B) :
  (∀ a, k a = k' a) → m ≫= k = m ≫= k'.
Proof.
  intros H. unfold mbind, Run_bind. destruct m as [t [a| |]]; simpl; [|done..].
  by rewrite H.
Qed.

Lemma bind_assoc {A B C} (m : Run A) (k : A → Run B) (h : B → Run C) :
  (m ≫= k) ≫= h = m ≫= (λ a, k a ≫= h).
Proof.
  unfold mbind, Run_bind. destruct m as [t [a| |]]; simpl; [|done..].
  destruct (k a) as [t' [b| |]]; simpl; [|done..].
  by rewrite (assoc_L (++)).
Qed.

Lemma for_emit {A} (l : list A) (f : A → Event) :
  for_ l (λ x, emit (f x)) = (f <$> l, Returned tt).
Proof.
  induction l as [|x l IH]; [done|]. simpl for_. rewrite IH. done.
Qed.

Lemma output_document_app (t1 t2 : list Event) :
  output_document (t1 ++ t2) = output_document t1 ++ output_document t2.
Proof. apply omap_app. Qed.

Lemma stages_run_app (t1 t2 : list Event) :
  stages_run (t1 ++ t2) = stages_run t1 ++ stages_run t2.
Proof. apply omap_app. Qed.

Lemma debug_quiet {A} (f : A → string) (l : list A) :
  output_document ((λ x, ELog Debug (f x) None) <$> l) = []
  ∧ stages_run ((λ x, ELog Debug (f x) None) <$> l) = [].
Proof. induction l as [|x l [IH1 IH2]]; [done|]. split; simpl; done. Qed.

Lemma setup_ok (w : Collaborators) (o : Options) :
  Py.truthy (src_file o) = true →
  (setup w o).2 = Returned (configure_finder w o)
  ∧ output_document (setup w o).1 = []
  ∧ stages_run (setup w o).1 = [NewRepository].
Proof.
  intros Hsrc. unfold setup, when, log_debug, log_warning, call.
  rewrite Hsrc. generalize (configure_finder w o). intros fd.
  rewrite !for_emit.
  destruct (bool_decide _);
    cbn [mbind Run_bind mret Run_ret emit fst snd negb];
    rewrite ?output_document_app, ?stages_run_app;
    repeat match goal with
    | |- context [output_document (?f <$> ?l)] =>
        rewrite (proj1 (debug_quiet _ l))
    | |- context [stages_run (?f <$> ?l)] =>
        rewrite (proj2 (debug_quiet _ l))
    end; done.
Qed.

Lemma setup_no_src_file (w : Collaborators) (o : Options) :
  Py.truthy (src_file o) = false →
  setup w o =
  ([ESetVerbose (verbose o); ELog Warning "No input files to process." None],
   Exited 2).
Proof. intros Hsrc. unfold setup, when. by rewrite Hsrc. Qed.

Lemma collect_eq (w : Collaborators) (o : Options) (finder : Finder) :
  collect w o finder =
  ([ECall ParseRequirements],
   match parse_requirements w (src_file o) finder with
   | inl e => Raised e
   | inr parsed => Returned parsed
   end).
Proof. unfold collect. by destruct (parse_requirements _ _ _). Qed.

Lemma resolving_eq (w : Collaborators) (o : Options) (finder : Finder)
    (constraints : list InstallRequirement) :
  resolving w o finder constraints =
  match resolve w constraints finder (pre o) (rebuild o) with
  | inr resolved => ([ECall Resolve], Returned resolved)
  | inl (PipToolsError message) =>
      ([ECall Resolve; ELog Error message None], Exited 2)
  | inl e => ([ECall Resolve], Raised e)
  end.
Proof. unfold resolving. by destruct (resolve _ _ _ _ _) as [[]|]. Qed.

(** ** Failure of the resolver (lines 77-82) *)

(** C6: when the resolver raises [PipToolsError], the run logs the error and
    exits with status 2; the stages that ran are the repository setup, the
    parsing and the resolution, and no line of the output document (header,
    index directive or requirement) is logged. *)
Theorem resolution_failure_no_output (w : Collaborators) (o : Options)
    (constraints : list InstallRequirement) (finder : Finder)
    (message : string) :
  Py.truthy (src_file o) = true →
  parse_requirements w (src_file o) (configure_finder w o) =
    inr (constraints, finder) →
  resolve w constraints finder (pre o) (rebuild o) =
    inl (PipToolsError message) →
  (cli w o).2 = Exited 2
  ∧ output_document (cli w o).1 = []
  ∧ stages_run (cli w o).1 = [NewRepository; ParseRequirements; Resolve]
  ∧ last (cli w o).1 = Some (ELog Error message None).
Proof.
  intros Hsrc Hparse Hresolve.
  destruct (setup_ok w o Hsrc) as (Hret & Hout & Hstages).
  unfold cli. rewrite (bind_returned _ _ _ Hret).
  rewrite collect_eq, Hparse.
  rewrite (bind_returned _ _ (constraints, finder)) by done. cbn [fst snd].
  rewrite resolving_eq, Hresolve.
  rewrite (bind_exited _ _ 2) by done.
  cbn [fst snd].
  rewrite !output_document_app, !stages_run_app, Hout, Hstages.
  repeat split; try done.
  by rewrite !last_app.
Qed.

Lemma resolution_failure_no_output_witness :
  let w := sample_world (inl (PipToolsError "no match")) [] in
  let o := sample_options true in
  (cli w o).2 = Exited 2
  ∧ output_document (cli w o).1 = []
  ∧ stages_run (cli w o).1 = [NewRepository; ParseRequirements; Resolve]
  ∧ last (cli w o).1 = Some (ELog Error "no match" None).
Proof.
  intros w o.
  eapply (resolution_failure_no_output w o); reflexivity.
Defined.

(** ** The pip version gate (lines 9-12) *)

(** With two components, the gate's test is the lexicographic comparison
    with (6, 1). *)
Lemma tuple_geb_6_1 (major minor : Z) :
  Version.tuple_geb [major; minor] [6; 1]%Z = false ↔
  (major < 6 ∨ (major = 6 ∧ minor < 1))%Z.
Proof.
  simpl. destruct (Z.eqb_spec major 6) as [->|Hne].
  - destruct (Z.eqb_spec minor 1) as [->|Hne]; [split; [done|lia]|].
    rewrite Z.ltb_ge. lia.
  - rewrite Z.ltb_ge. lia.
Qed.

(** A version of a single component is below (6, 1) up to and including 6:
    the shorter tuple is the smaller one. *)
Lemma tuple_geb_single (major : Z) :
  Version.tuple_geb [major] [6; 1]%Z = false ↔ (major ≤ 6)%Z.
Proof.
  simpl. destruct (Z.eqb_spec major 6) as [->|Hne]; [split; [lia|done]|].
  rewrite Z.ltb_ge. lia.
Qed.

(** X17: a pip at (6, 1) or above passes the gate: the module then behaves
    as [cli] and prints no upgrade message. *)
Lemma recent_pip_runs (version : string) (w : Collaborators) (o : Options)
    (major minor : Z) :
  Version.version_tuple version = Some [major; minor] →
  (6 < major ∨ (major = 6 ∧ 1 ≤ minor))%Z →
  main version w o = cli w o.
Proof.
  intros Hv Hge. unfold main. rewrite Hv.
  destruct (Version.tuple_geb _ _) eqn:Hgeb; [done|].
  apply tuple_geb_6_1 in Hgeb. lia.
Qed.

(** C8: when the first two components of the pip version are below (6, 1),
    the whole run is the upgrade message followed by exit status 4: no event
    of [cli] (setup, parsing, resolution, formatting) occurs. *)
Theorem old_pip_exits (version : string) (w : Collaborators) (o : Options)
    (major minor : Z) :
  Version.version_tuple version = Some [major; minor] →
  (major < 6 ∨ (major = 6 ∧ minor < 1))%Z →
  main version w o = ([EPrint (Version.upgrade_message version)], Exited 4)
  ∧ stages_run (main version w o).1 = []
  ∧ output_document (main version w o).1 = [].
Proof.
  intros Hv Hlt. apply tuple_geb_6_1 in Hlt.
  assert (main version w o =
          ([EPrint (Version.upgrade_message version)], Exited 4)) as ->; [|done].
  unfold main. by rewrite Hv, Hlt.
Qed.

Lemma old_pip_exits_witness :
  let w := sample_world (inr ([django; toolbar], sample_cache)) [] in
  main "1.5.6" w (sample_options true) =
    ([EPrint (Version.upgrade_message "1.5.6")], Exited 4)
  ∧ stages_run (main "1.5.6" w (sample_options true)).1 = []
  ∧ output_document (main "1.5.6" w (sample_options true)).1 = [].
Proof.
  intros w.
  apply (old_pip_exits "1.5.6" w (sample_options true) 1 5);
    [reflexivity | lia].
Defined.

(** ** Runs without annotations (lines 104, 133-137) *)

Lemma stages_bind {A B} (s : Stage) (m : Run A) (k : A → Run B) :
  s ∉ stages_run m.1 → (∀ a, s ∉ stages_run (k a).1) →
  s ∉ stages_run (m ≫= k).1.
Proof.
  intros Hm Hk. unfold mbind, Run_bind.
  destruct m as [t [a| |]]; simpl in *; [|done..].
  rewrite stages_run_app, elem_of_app. intros [?|?]; [done|]. by eapply Hk.
Qed.

Lemma stages_for {A} (s : Stage) (l : list A) (body : A → Run unit) :
  (∀ x, s ∉ stages_run (body x).1) → s ∉ stages_run (for_ l body).1.
Proof.
  intros Hbody. induction l as [|x l IH]; simpl; [apply not_elem_of_nil|].
  apply stages_bind; [apply Hbody | done].
Qed.

Lemma stages_when (s : Stage) (b : bool) (m : Run unit) :
  s ∉ stages_run m.1 → s ∉ stages_run (when b m).1.
Proof. destruct b; [done|]. intros _. apply not_elem_of_nil. Qed.

Lemma stages_emit (s : Stage) (e : Event) :
  stage_of e ≠ Some s → s ∉ stages_run (emit e).1.
Proof.
  intros He. simpl. unfold stages_run. simpl.
  destruct (stage_of e) as [s'|]; [|apply not_elem_of_nil].
  rewrite list_elem_of_singleton. congruence.
Qed.

Ltac no_stage :=
  repeat first
    [ apply stages_bind; [|intros ?]
    | apply stages_for; intros ?
    | apply stages_when
    | apply stages_emit; discriminate
    | apply not_elem_of_nil ].

Ltac no_stage_in_list :=
  simpl; rewrite ?not_elem_of_cons; repeat split;
  first [discriminate | apply not_elem_of_nil].

Lemma setup_stages (w : Collaborators) (o : Options) :
  ReverseDependencies ∉ stages_run (setup w o).1.
Proof. unfold setup, log_debug, log_warning, call, sys_exit. no_stage. Qed.

Lemma render_without_annotate_stages (w : Collaborators) (o : Options)
    (finder : Finder) (results : list InstallRequirement)
    (cache : DependencyCache) :
  annotate o = false →
  ReverseDependencies ∉ stages_run (render w o finder results cache).1.
Proof.
  intros Hann. unfold render, header, log_debug, log_info, log_warning.
  rewrite Hann. no_stage.
Qed.

Lemma render_without_annotate (f : DependencyCache → DependencyCache)
    (w : Collaborators) (o : Options) (finder : Finder)
    (results : list InstallRequirement) (cache : DependencyCache) :
  annotate o = false →
  render (with_cache f w) o finder results (f cache) =
  render w o finder results cache.
Proof. intros Hann. unfold render. by rewrite Hann. Qed.

(** C9: without [annotate], [reverse_dependencies] is not called at any point
    of the run, and the run is the same whatever the dependency cache
    holds: replacing the cache by any other one changes no event. *)
Theorem cache_ignored_without_annotate (f : DependencyCache → DependencyCache)
    (w : Collaborators) (o : Options) :
  annotate o = false →
  cli (with_cache f w) o = cli w o
  ∧ ReverseDependencies ∉ stages_run (cli w o).1.
Proof.
  intros Hann. split.
  - unfold cli. change (setup (with_cache f w) o) with (setup w o).
    apply bind_ext. intros finder.
    change (collect (with_cache f w) o finder) with (collect w o finder).
    apply bind_ext. intros [constraints finder']. cbn [fst snd].
    rewrite !resolving_eq. cbn [resolve with_cache].
    destruct (resolve w constraints finder' (pre o) (rebuild o))
      as [[]|[results cache]]; try done.
    cbn [mbind Run_bind fst snd].
    by rewrite render_without_annotate.
  - unfold cli. apply stages_bind; [apply setup_stages|]. intros finder.
    apply stages_bind; [rewrite collect_eq; no_stage_in_list|].
    intros parsed.
    apply stages_bind; [|intros []; by apply render_without_annotate_stages].
    rewrite resolving_eq.
    destruct (resolve _ _ _ _ _) as [[]|]; no_stage_in_list.
Qed.

Lemma cache_ignored_without_annotate_witness :
  let w := sample_world (inr ([django; toolbar], sample_cache)) [] in
  cli (with_cache (λ _, ∅) w) (sample_options false) =
    cli w (sample_options false)
  ∧ ReverseDependencies ∉ stages_run (cli w (sample_options false)).1.
Proof.
  intros w.
  apply (cache_ignored_without_annotate (λ _, ∅) w (sample_options false)).
  reflexivity.
Defined.

(** ** The dry-run flag (lines 142-143) *)

Lemma then_warning (m : Run unit) :
  m ≫= (λ _, emit dry_run_warning) =
  match m.2 with
  | Returned _ => (m.1 ++ [dry_run_warning], Returned tt)
  | _ => m
  end.
Proof. unfold mbind, Run_bind. by destruct m as [t [[]| |]]. Qed.

Lemma render_dry_run (w : Collaborators) (o : Options) (finder : Finder)
    (results : list InstallRequirement) (cache : DependencyCache) :
  render w (set_dry_run true o) finder results cache =
  render w (set_dry_run false o) finder results cache ≫=
    (λ _, emit dry_run_warning).
Proof.
  unfold render. cbn [set_dry_run dry_run verbose no_header annotate src_file when].
  do 5 (rewrite bind_assoc; apply bind_ext; intros ?; cbv beta).
  done.
Qed.

(** C10: the dry-run flag only adds the warning. A run with the flag logs
    everything the run without it logs, in the same order; when that run
    returns normally the warning follows as the last event, and when it
    ends early (exit or exception) the two runs are the same. *)
Theorem dry_run_only_warns (w : Collaborators) (o : Options) :
  cli w (set_dry_run true o) =
  match (cli w (set_dry_run false o)).2 with
  | Returned _ =>
      ((cli w (set_dry_run false o)).1 ++ [dry_run_warning], Returned tt)
  | _ => cli w (set_dry_run false o)
  end.
Proof.
  rewrite <-then_warning. unfold cli.
  change (setup w (set_dry_run true o)) with (setup w (set_dry_run false o)).
  rewrite bind_assoc. apply bind_ext. intros finder. cbv beta.
  change (collect w (set_dry_run true o) finder)
    with (collect w (set_dry_run false o) finder).
  rewrite bind_assoc. apply bind_ext. intros parsed. cbv beta.
  change (resolving w (set_dry_run true o) parsed.2 parsed.1)
    with (resolving w (set_dry_run false o) parsed.2 parsed.1).
  rewrite bind_assoc. apply bind_ext. intros resolved. cbv beta.
  apply render_dry_run.
Qed.

(** ** Determinism of the formatting stage (lines 84-140) *)

Section stable_unique.
Context {A K : Type} `{EqDecision K} (key : A → K) (leb : K → K → bool).
Hypothesis leb_antisym : ∀ a b, leb a b = true → leb b a = true → a = b.

Let R (x y : A) : Prop := leb (key x) (key y) = true.

Lemma filter_key_head (x : A) (l : list A) :
  filter (λ y, key y = key x) (x :: l) = x :: filter (λ y, key y = key x) l.
Proof. by rewrite filter_cons, decide_True. Qed.

(** Two sorted lists that agree, key by key, on the elements carrying that
    key are the same list. *)
Lemma sorted_ties_unique (l1 l2 : list A) :
  StronglySorted R l1 → StronglySorted R l2 →
  (∀ k, filter (λ y, key y = k) l1 = filter (λ y, key y = k) l2) →
  l1 = l2.
Proof.
  intros Hs1. revert l2.
  induction Hs1 as [|x l1 Hs1 IH Hx]; intros l2 Hs2 Hties.
  - destruct l2 as [|y l2]; [done|].
    specialize (Hties (key y)). by rewrite filter_key_head in Hties.
  - destruct Hs2 as [|y l2 Hs2 Hy].
    { specialize (Hties (key x)). by rewrite filter_key_head in Hties. }
    assert (key x = key y) as Hkey.
    { destruct (decide (key x = key y)) as [|Hne]; [done|].
      apply leb_antisym.
      - pose proof (Hties (key y)) as Hty.
        rewrite filter_key_head, filter_cons, decide_False in Hty by done.
        assert (y ∈ l1) as Hin.
        { eapply (list_elem_of_filter (λ z, key z = key y)).
          rewrite Hty. apply list_elem_of_here. }
        rewrite Forall_forall in Hx. by apply Hx.
      - pose proof (Hties (key x)) as Htx.
        rewrite filter_key_head, filter_cons, decide_False in Htx
          by (by intros ?).
        assert (x ∈ l2) as Hin.
        { eapply (list_elem_of_filter (λ z, key z = key x)).
          rewrite <-Htx. apply list_elem_of_here. }
        rewrite Forall_forall in Hy. by apply Hy. }
    assert (x = y) as <-.
    { pose proof (Hties (key x)) as Htx.
      rewrite filter_key_head, Hkey, filter_key_head in Htx. congruence. }
    f_equal. apply IH; [done|]. intros k. specialize (Hties k).
    rewrite !filter_cons in Hties. destruct (decide (key x = k)); congruence.
Qed.

(** With pairwise distinct keys, any two orders of the same elements agree
    on ties, there being none. *)
Lemma filter_key_NoDup (k : K) (l : list A) :
  NoDup (key <$> l) → length (filter (λ y, key y = k) l) ≤ 1.
Proof.
  induction l as [|x l IH]; [simpl; lia|].
  rewrite fmap_cons, NoDup_cons. intros [Hx Hl]. rewrite filter_cons.
  destruct (decide (key x = k)) as [<-|]; [|by apply IH].
  destruct (filter _ l) as [|y l'] eqn:Hf; [simpl; lia|].
  assert (y ∈ filter (λ y, key y = key x) l) as [Hy Hin]%list_elem_of_filter
    by (rewrite Hf; apply list_elem_of_here).
  destruct Hx. rewrite <-Hy. by apply list_elem_of_fmap_2.
Qed.

Lemma ties_of_NoDup (l1 l2 : list A) :
  l1 ≡ₚ l2 → NoDup (key <$> l1) →
  ∀ k, filter (λ y, key y = k) l1 = filter (λ y, key y = k) l2.
Proof.
  intros Hp Hnd k.
  pose proof (filter_key_NoDup k l1 Hnd) as Hlen.
  assert (filter (λ y, key y = k) l1 ≡ₚ filter (λ y, key y = k) l2) as Hpf
    by (by rewrite Hp).
  destruct (filter _ l1) as [|a [|??]]; simpl in Hlen; [| |lia].
  - by apply Permutation_nil_l in Hpf.
  - by apply Permutation_singleton_l in Hpf.
Qed.
End stable_unique.

Lemma key_leb_antisym (a b : bool * string) :
  key_leb a b = true → key_leb b a = true → a = b.
Proof.
  destruct a as [[] s], b as [[] t]; unfold key_leb; simpl; try done;
    intros; f_equal; by apply String.leb_antisym.
Qed.

(** The sorted results depend on the resolved set and, for entries with the
    same sort key, on the order in which they are met. *)
Lemma formatted_results_ties (results1 results2 : list InstallRequirement) :
  (∀ k, filter (λ r, sort_key r = k) results1 =
        filter (λ r, sort_key r = k) results2) →
  formatted_results results1 = formatted_results results2.
Proof.
  intros Hties.
  apply (sorted_ties_unique sort_key key_leb key_leb_antisym);
    try (apply sorted_StronglySorted; [apply key_leb_total|apply key_leb_trans]).
  intros k. unfold formatted_results.
  rewrite !sorted_stable by apply key_leb_total. apply Hties.
Qed.

(** The order in which a set of parents is iterated does not matter. *)
Lemma sorted_parents_perm (parents1 parents2 : list string) :
  parents1 ≡ₚ parents2 →
  sorted id String.leb parents1 = sorted id String.leb parents2.
Proof.
  intros Hp.
  apply (sorted_ties_unique id String.leb String.leb_antisym);
    try (apply sorted_StronglySorted;
         [apply String.leb_total|apply string_leb_trans]).
  intros k. rewrite !sorted_stable by apply String.leb_total.
  induction Hp as [|x l l' _ IH|x y l|l l' l'' _ IH1 _ IH2];
    [done| |by rewrite !filter_cons; unfold id;
             destruct (decide (x = k)), (decide (y = k)); congruence
           |congruence].
  rewrite !filter_cons. destruct (decide (id x = k)); congruence.
Qed.

Lemma annotation_text_perm (rd1 rd2 : RevDeps) (r : InstallRequirement) :
  default [] (rd1 !! name r) ≡ₚ default [] (rd2 !! name r) →
  annotation_text rd1 r = annotation_text rd2 r.
Proof. intros Hp. unfold annotation_text. by rewrite (sorted_parents_perm _ _ Hp). Qed.

Lemma for_ext {A} (l : list A) (body body' : A → Run unit) :
  (∀ x, body x = body' x) → for_ l body = for_ l body'.
Proof.
  intros Hb. induction l as [|x l IH]; [done|]. simpl. by rewrite Hb, IH.
Qed.

(** C7 (amended): the formatting stage is a function of its inputs and of
    the order in which entries with the same sort key are met. Two runs with
    the same configuration, the same resolved set and the same reverse
    dependencies log the same events, byte for byte, provided the resolved
    requirements that share a sort key are met in the same order in both
    runs, which is always so when no two of them share a sort key; the order
    in which the sets are iterated does not matter otherwise, neither for the
    resolved set nor for the parents of a package. *)
Theorem render_deterministic (w1 w2 : Collaborators) (o : Options)
    (finder : Finder) (results1 results2 : list InstallRequirement)
    (cache : DependencyCache) :
  DEFAULT_INDEX_URL w1 = DEFAULT_INDEX_URL w2 →
  (∀ r a, format_requirement w1 r a = format_requirement w2 r a) →
  (∀ k, filter (λ r, sort_key r = k) results1 =
        filter (λ r, sort_key r = k) results2) →
  (∀ n, default [] (reverse_dependencies w1 cache results1 !! n) ≡ₚ
        default [] (reverse_dependencies w2 cache results2 !! n)) →
  render w1 o finder results1 cache = render w2 o finder results2 cache.
Proof.
  intros Hdefault Hformat Hties Hparents. unfold render.
  rewrite Hdefault, (formatted_results_ties _ _ Hties).
  do 3 (apply bind_ext; intros ?).
  destruct (annotate o); cbn [mbind Run_bind mret Run_ret call emit fst snd].
  - f_equal; [f_equal|]; f_equal; f_equal; apply for_ext; intros r;
      unfold annotation_of;
      by rewrite Hformat, (annotation_text_perm _ _ r (Hparents (name r))).
  - f_equal; [f_equal|]; f_equal; f_equal; apply for_ext; intros r;
      by rewrite Hformat.
Qed.

Lemma render_deterministic_witness :
  let answer := inr ([django; toolbar], sample_cache) in
  let finder := {| finder_index_urls := [pypi; "https://x"];
                   finder_find_links := [] |} in
  render (sample_world answer ["b"; "a"]) (sample_options true) finder
         [django; toolbar] sample_cache =
  render (sample_world answer ["a"; "b"]) (sample_options true) finder
         [toolbar; django] sample_cache.
Proof.
  intros answer finder.
  apply (render_deterministic (sample_world answer ["b"; "a"])
           (sample_world answer ["a"; "b"])).
  - reflexivity.
  - reflexivity.
  - apply ties_of_NoDup; [apply Permutation_swap|].
    apply (bool_decide_unpack _). vm_compute. exact I.
  - intros n. simpl. destruct (decide (n = "django")) as [->|Hne].
    + rewrite !lookup_singleton_eq. apply Permutation_swap.
    + by rewrite !lookup_singleton_ne.
Defined.

(** C7, as stated, fails: one and the same resolved set, iterated in two
    orders, gives two documents when two of its entries share a sort key, as
    [A==1] and [a==1] do; the sort leaves them in the order it met them. *)
Lemma render_depends_on_iteration_order :
  let upper := {| name := "A"; editable := false; req := "A==1" |} in
  let lower := {| name := "a"; editable := false; req := "a==1" |} in
  let w := sample_world (inr ([upper; lower], sample_cache)) [] in
  let finder := {| finder_index_urls := [pypi]; finder_find_links := [] |} in
  [upper; lower] ≡ₚ [lower; upper]
  ∧ sort_key upper = sort_key lower
  ∧ output_document
      (render w (sample_options false) finder [upper; lower] sample_cache).1 ≠
    output_document
      (render w (sample_options false) finder [lower; upper] sample_cache).1.
Proof.
  intros upper lower w finder.
  split; [apply Permutation_swap|]. split; [reflexivity|].
  vm_compute. discriminate.
Qed.

(** ** The run as a whole (lines 40-143) *)

Lemma info_lines {A} (f : A → string) (fg : option string) (l : list A) :
  output_document ((λ x, ELog Info (f x) fg) <$> l) = f <$> l
  ∧ stages_run ((λ x, ELog Info (f x) fg) <$> l) = [].
Proof.
  induction l as [|x l [IH1 IH2]]; [done|]. split; [|done].
  rewrite !fmap_cons. simpl. f_equal. exact IH1.
Qed.

Lemma render_run (w : Collaborators) (o : Options) (finder : Finder)
    (results : list InstallRequirement) (cache : DependencyCache) :
  let rev_deps := if annotate o
                  then Some (reverse_dependencies w cache results) else None in
  (render w o finder results cache).2 = Returned tt
  ∧ output_document (render w o finder results cache).1 =
      (if no_header o then [] else header_lines (src_file o)) ++
      index_directive_lines (DEFAULT_INDEX_URL w) (finder_index_urls finder) ++
      ((λ r, format_requirement w r (annotation_of rev_deps r)) <$>
         formatted_results results)
  ∧ stages_run (render w o finder results cache).1 =
      (if annotate o then [ReverseDependencies] else []).
Proof.
  unfold render, header, when, log_debug, log_info, log_warning, call,
    index_directive_lines.
  rewrite !for_emit.
  destruct (no_header o), (annotate o), (dry_run o);
    cbn [mbind Run_bind mret Run_ret emit fst snd negb];
    rewrite ?for_emit; cbn [mbind Run_bind mret Run_ret emit fst snd];
    rewrite ?output_document_app, ?stages_run_app;
    repeat match goal with
    | |- context [output_document ((λ x, ELog Info (@?f x) ?fg) <$> ?l)] =>
        rewrite (proj1 (info_lines f fg l))
    | |- context [stages_run ((λ x, ELog Info (@?f x) ?fg) <$> ?l)] =>
        rewrite (proj2 (info_lines f fg l))
    end;
    cbn [output_document stages_run omap list_omap info_line stage_of app];
    rewrite ?(right_id_L [] (++)); done.
Qed.

(** X1: with an empty [src_file] the command only sets the logger, logs the
    warning and exits with status 2: no repository is created, nothing is
    parsed or resolved and nothing is written. *)
Theorem empty_src_file_exits (w : Collaborators) (o : Options) :
  Py.truthy (src_file o) = false →
  cli w o =
  ([ESetVerbose (verbose o); ELog Warning "No input files to process." None],
   Exited 2).
Proof.
  intros Hsrc. unfold cli.
  rewrite (setup_no_src_file w o Hsrc). by rewrite (bind_exited _ _ 2).
Qed.

Lemma empty_src_file_exits_witness :
  let o := set_dry_run true
             {| verbose := true; dry_run := false; pre := false;
                rebuild := false; find_links := []; index_url := None;
                extra_index_url := []; no_header := false; annotate := true;
                src_file := "" |} in
  cli (sample_world (inr ([django], sample_cache)) []) o =
  ([ESetVerbose true; ELog Warning "No input files to process." None],
   Exited 2).
Proof.
  intros o.
  apply (empty_src_file_exits (sample_world (inr ([django], sample_cache)) []) o).
  reflexivity.
Defined.

(** X2: an exception of [parse_requirements] is not handled, whatever its
    class: it leaves [cli] as it is, the resolver is never started and
    nothing is written. *)
Theorem parse_failure_propagates (w : Collaborators) (o : Options) (e : Exn) :
  Py.truthy (src_file o) = true →
  parse_requirements w (src_file o) (configure_finder w o) = inl e →
  (cli w o).2 = Raised e
  ∧ output_document (cli w o).1 = []
  ∧ stages_run (cli w o).1 = [NewRepository; ParseRequirements].
Proof.
  intros Hsrc Hparse.
  destruct (setup_ok w o Hsrc) as (Hret & Hout & Hstages).
  unfold cli. rewrite (bind_returned _ _ _ Hret).
  rewrite collect_eq, Hparse.
  rewrite (bind_raised _ _ e) by done. cbn [fst snd].
  by rewrite !output_document_app, !stages_run_app, Hout, Hstages.
Qed.

Lemma parse_failure_propagates_witness :
  let w := {| DEFAULT_INDEX_URL := pypi;
              new_finder := {| finder_index_urls := [pypi];
                               finder_find_links := [] |};
              parse_requirements := λ _ _, inl (PipToolsError "bad line");
              resolve := λ _ _ _ _, inr ([django], sample_cache);
              reverse_dependencies := λ _ _, ∅;
              format_requirement := spec_format_requirement |} in
  (cli w (sample_options true)).2 = Raised (PipToolsError "bad line")
  ∧ output_document (cli w (sample_options true)).1 = []
  ∧ stages_run (cli w (sample_options true)).1 =
      [NewRepository; ParseRequirements].
Proof.
  intros w.
  apply (parse_failure_propagates w (sample_options true)); reflexivity.
Defined.

(** X3: only [PipToolsError] is caught around the resolver. Any other
    exception it raises leaves [cli] unchanged: no error is logged, there is
    no exit status 2, and nothing is written. *)
Theorem resolver_error_propagates (w : Collaborators) (o : Options)
    (constraints : list InstallRequirement) (finder : Finder) (e : Exn) :
  Py.truthy (src_file o) = true →
  parse_requirements w (src_file o) (configure_finder w o) =
    inr (constraints, finder) →
  resolve w constraints finder (pre o) (rebuild o) = inl e →
  (∀ message, e ≠ PipToolsError message) →
  (cli w o).2 = Raised e
  ∧ output_document (cli w o).1 = []
  ∧ last (cli w o).1 = Some (ECall Resolve).
Proof.
  intros Hsrc Hparse Hresolve Hother.
  destruct (setup_ok w o Hsrc) as (Hret & Hout & Hstages).
  unfold cli. rewrite (bind_returned _ _ _ Hret).
  rewrite collect_eq, Hparse.
  rewrite (bind_returned _ _ (constraints, finder)) by done. cbn [fst snd].
  rewrite resolving_eq, Hresolve.
  destruct e as [message| |]; [by destruct (Hother message)| |];
    cbn [mbind Run_bind fst snd];
    by rewrite !output_document_app, Hout, !last_app.
Qed.

Lemma resolver_error_propagates_witness :
  let w := sample_world (inl (OtherError "connection reset")) [] in
  (cli w (sample_options true)).2 = Raised (OtherError "connection reset")
  ∧ output_document (cli w (sample_options true)).1 = []
  ∧ last (cli w (sample_options true)).1 = Some (ECall Resolve).
Proof.
  intros w.
  eapply (resolver_error_propagates w (sample_options true));
    [reflexivity..|discriminate].
Defined.

(** X4: when parsing and resolution succeed the command returns normally and
    the document it writes is, in this order, the header (unless
    [no_header]), the index directives of the finder as the parsing left it
    (the option lines of the source file count), and one line for each
    resolved requirement in sorted order, annotated from the reverse
    dependencies when [annotate] is set. *)
Theorem successful_run_document (w : Collaborators) (o : Options)
    (constraints results : list InstallRequirement) (finder : Finder)
    (cache : DependencyCache) :
  Py.truthy (src_file o) = true →
  parse_requirements w (src_file o) (configure_finder w o) =
    inr (constraints, finder) →
  resolve w constraints finder (pre o) (rebuild o) =
    inr (results, cache) →
  (cli w o).2 = Returned tt
  ∧ output_document (cli w o).1 =
      (if no_header o then [] else header_lines (src_file o)) ++
      index_directive_lines (DEFAULT_INDEX_URL w) (finder_index_urls finder) ++
      ((λ r, format_requirement w r
               (annotation_of
                  (if annotate o
                   then Some (reverse_dependencies w cache results)
                   else None) r)) <$> formatted_results results).
Proof.
  intros Hsrc Hparse Hresolve.
  destruct (setup_ok w o Hsrc) as (Hret & Hout & Hstages).
  destruct (render_run w o finder results cache)
    as (Hrret & Hrout & Hrstages).
  unfold cli. rewrite (bind_returned _ _ _ Hret).
  rewrite collect_eq, Hparse.
  rewrite (bind_returned _ _ (constraints, finder)) by done. cbn [fst snd].
  rewrite resolving_eq, Hresolve.
  rewrite (bind_returned _ _ (results, cache)) by done. cbn [fst snd].
  rewrite !output_document_app, Hout, Hrout. done.
Qed.

Lemma successful_run_document_witness :
  let mirror := {| finder_index_urls := ["https://mirror"];
                   finder_find_links := [] |} in
  let w := {| DEFAULT_INDEX_URL := pypi;
              new_finder := {| finder_index_urls := [pypi];
                               finder_find_links := [] |};
              parse_requirements := λ _ _, inr ([django], mirror);
              resolve := λ _ _ _ _, inr ([django; toolbar], sample_cache);
              reverse_dependencies := λ _ _,
                {[ "django" := ["django-debug-toolbar"] ]};
              format_requirement := spec_format_requirement |} in
  (cli w (sample_options true)).2 = Returned tt
  ∧ output_document (cli w (sample_options true)).1 =
      header_lines "requirements.in" ++
      index_directive_lines pypi ["https://mirror"] ++
      ((λ r, spec_format_requirement r
               (annotation_of
                  (Some {[ "django" := ["django-debug-toolbar"] ]}) r)) <$>
         formatted_results [django; toolbar]).
Proof.
  intros mirror w.
  apply (successful_run_document w (sample_options true)
           [django] [django; toolbar] mirror sample_cache); reflexivity.
Defined.

(** X5: a successful run goes through the stages once each and in order:
    repository, parsing, resolution, and then the reverse dependencies
    exactly when [annotate] is set. *)
Theorem successful_run_stages (w : Collaborators) (o : Options)
    (constraints results : list InstallRequirement) (finder : Finder)
    (cache : DependencyCache) :
  Py.truthy (src_file o) = true →
  parse_requirements w (src_file o) (configure_finder w o) =
    inr (constraints, finder) →
  resolve w constraints finder (pre o) (rebuild o) =
    inr (results, cache) →
  stages_run (cli w o).1 =
    [NewRepository; ParseRequirements; Resolve] ++
    (if annotate o then [ReverseDependencies] else []).
Proof.
  intros Hsrc Hparse Hresolve.
  destruct (setup_ok w o Hsrc) as (Hret & Hout & Hstages).
  destruct (render_run w o finder results cache)
    as (Hrret & Hrout & Hrstages).
  unfold cli. rewrite (bind_returned _ _ _ Hret).
  rewrite collect_eq, Hparse.
  rewrite (bind_returned _ _ (constraints, finder)) by done. cbn [fst snd].
  rewrite resolving_eq, Hresolve.
  rewrite (bind_returned _ _ (results, cache)) by done. cbn [fst snd].
  rewrite !stages_run_app, Hstages, Hrstages. done.
Qed.

Lemma successful_run_stages_witness :
  stages_run
    (cli (sample_world (inr ([django; toolbar], sample_cache)) [])
         (sample_options true)).1 =
  [NewRepository; ParseRequirements; Resolve; ReverseDependencies].
Proof.
  eapply (successful_run_stages
            (sample_world (inr ([django; toolbar], sample_cache)) [])
            (sample_options true)); reflexivity.
Defined.

(** ** The index directives of a configured finder (lines 55-57, 98-102) *)



(** X7: when the first index differs from the default one, the first
    directive logged is the [--index-url] line of that index, whatever
    follows in [index_urls]. *)
Theorem primary_directive_first (D u : string) (us : list string) :
  u ≠ D →
  head (index_directive_lines D (u :: us)) = Some ("--index-url " +:+ u).
Proof.
  intros Hne. unfold index_directive_lines, index_directives.
  rewrite zip_directives_cons. simpl.
  by destruct (String.eqb_spec u D).
Qed.

Lemma primary_directive_first_witness :
  head (index_directive_lines pypi ["https://x"; pypi; "https://y"]) =
  Some "--index-url https://x".
Proof.
  apply (primary_directive_first pypi "https://x" [pypi; "https://y"]).
  discriminate.
Defined.

(** X8: [--index-url] labels the first logged directive or none: every
    directive after the first one logged is an [--extra-index-url] one, so a
    document never holds two [--index-url] lines. *)
Theorem later_directives_are_extra (D : string) (index_urls : list string)
    (i : nat) (d : string * string) :
  index_directives D index_urls !! S i = Some d →
  d.1 = "--extra-index-url".
Proof.
  intros Hd. destruct index_urls as [|u us]; [done|].
  assert ((index_directives D (u :: us)).*1 !! S i = Some d.1) as Hl
    by (by rewrite list_lookup_fmap, Hd).
  rewrite index_directives_labels in Hl.
  destruct (decide (u = D)); simpl in Hl.
  - by apply lookup_replicate in Hl as [-> _].
  - by apply lookup_replicate in Hl as [-> _].
Qed.

Lemma later_directives_are_extra_witness :
  ("--extra-index-url", "https://x").1 = "--extra-index-url".
Proof.
  apply (later_directives_are_extra pypi ["https://x"; "https://y"] 0
           ("--extra-index-url", "https://x")).
  reflexivity.
Defined.

(** ** More on the output ordering (line 86) *)

(** X9: sorting is idempotent: the sorted results, sorted again, do not
    move. *)
Theorem formatted_results_idempotent (results : list InstallRequirement) :
  formatted_results (formatted_results results) = formatted_results results.
Proof.
  apply formatted_results_ties. intros k.
  apply sorted_stable, key_leb_total.
Qed.

(** X10: when no two resolved requirements share a sort key, the sorted
    results do not depend on the order in which the resolved set is
    iterated. *)
Theorem formatted_results_perm (results1 results2 : list InstallRequirement) :
  results1 ≡ₚ results2 →
  NoDup (sort_key <$> results1) →
  formatted_results results1 = formatted_results results2.
Proof.
  intros Hp Hnd. apply formatted_results_ties. by apply ties_of_NoDup.
Qed.

Lemma formatted_results_perm_witness :
  formatted_results [django; toolbar] = formatted_results [toolbar; django].
Proof.
  apply formatted_results_perm; [apply Permutation_swap|].
  apply (bool_decide_unpack _). vm_compute. exact I.
Defined.

Lemma filter_filter_implied {A} (P Q : A → Prop)
    `{∀ x, Decision (P x)} `{∀ x, Decision (Q x)} (l : list A) :
  (∀ x, P x → Q x) → filter P (filter Q l) = filter P l.
Proof.
  intros HPQ. induction l as [|x l IH]; [done|].
  rewrite !filter_cons. destruct (decide (Q x)) as [HQ|HQ].
  - rewrite filter_cons. destruct (decide (P x)); by rewrite IH.
  - rewrite decide_False by (by intros ?%HPQ). exact IH.
Qed.

Lemma filter_filter_excluded {A} (P Q : A → Prop)
    `{∀ x, Decision (P x)} `{∀ x, Decision (Q x)} (l : list A) :
  (∀ x, P x → ¬ Q x) → filter P (filter Q l) = [].
Proof.
  intros HPQ. induction l as [|x l IH]; [done|].
  rewrite filter_cons. destruct (decide (Q x)) as [HQ|HQ]; [|exact IH].
  rewrite filter_cons, decide_False; [exact IH|]. intros HP. by apply (HPQ x).
Qed.

(** X11: the sorted results are the sorted editable requirements followed by
    the sorted other ones: sorting the two groups apart and joining them
    gives the same document. *)
Theorem formatted_results_groups (results : list InstallRequirement) :
  formatted_results results =
  formatted_results (filter (λ r, editable r = true) results) ++
  formatted_results (filter (λ r, editable r = false) results).
Proof.
  apply (sorted_ties_unique sort_key key_leb key_leb_antisym).
  - apply sorted_StronglySorted; [apply key_leb_total|apply key_leb_trans].
  - apply StronglySorted_app_2.
    + intros x1 x2 Hx1 Hx2. unfold formatted_results in Hx1, Hx2.
      rewrite sorted_Permutation in Hx1. rewrite sorted_Permutation in Hx2.
      apply list_elem_of_filter in Hx1 as [He1 _].
      apply list_elem_of_filter in Hx2 as [He2 _].
      unfold key_leb, sort_key. simpl. by rewrite He1, He2.
    + apply sorted_StronglySorted; [apply key_leb_total|apply key_leb_trans].
    + apply sorted_StronglySorted; [apply key_leb_total|apply key_leb_trans].
  - intros k. unfold formatted_results.
    rewrite filter_app, !sorted_stable by apply key_leb_total.
    destruct k as [[] t].
    + rewrite (filter_filter_excluded _ (λ r, editable r = true)),
        (filter_filter_implied _ (λ r, editable r = false)); [done|..];
        intros x; unfold sort_key; destruct (editable x); naive_solver.
    + rewrite (filter_filter_implied _ (λ r, editable r = true)),
        (filter_filter_excluded _ (λ r, editable r = false));
        [by rewrite (right_id_L [] (++))|..];
        intros x; unfold sort_key; destruct (editable x); naive_solver.
Qed.

(** ** [split], [basename] and the version components *)

Lemma append_empty_r (s : string) : s +:+ "" = s.
Proof. induction s as [|c s IH]; [done|]. unfold String.app in *. simpl. by rewrite IH. Qed.

Lemma rev_app_rev_app (a b c : string) :
  String.rev_app (String.rev_app a b) c = String.rev_app b (a +:+ c).
Proof.
  revert b c. induction a as [|x a IH]; intros b c; [done|].
  simpl. by rewrite IH.
Qed.

Lemma rev_rev_app (a : string) : String.rev (String.rev_app a "") = a.
Proof.
  unfold String.rev. rewrite rev_app_rev_app. simpl. apply append_empty_r.
Qed.

Lemma contains_cons (sep c : ascii) (a : string) :
  contains sep (String c a) = false →
  Ascii.eqb c sep = false ∧ contains sep a = false.
Proof. simpl. by intros [??]%orb_false_elim. Qed.

(** Up to the first separator. *)
Lemma split_go_piece (sep : ascii) (cur a rest : string) :
  contains sep a = false →
  Py.split_go sep cur (a +:+ String sep rest) =
  String.rev (String.rev_app a cur) :: Py.split_go sep "" rest.
Proof.
  revert cur. induction a as [|c a IH]; intros cur Ha.
  - simpl. change ("" +:+ String sep rest) with (String sep rest). simpl.
    by rewrite Ascii.eqb_refl.
  - apply contains_cons in Ha as [Hc Ha].
    change (String c a +:+ String sep rest)
      with (String c (a +:+ String sep rest)).
    simpl. rewrite Hc. by apply IH.
Qed.

Lemma split_go_whole (sep : ascii) (cur a : string) :
  contains sep a = false →
  Py.split_go sep cur a = [String.rev (String.rev_app a cur)].
Proof.
  revert cur. induction a as [|c a IH]; intros cur Ha; [done|].
  apply contains_cons in Ha as [Hc Ha]. simpl. rewrite Hc. by apply IH.
Qed.

Lemma split_piece (sep : ascii) (a rest : string) :
  contains sep a = false →
  Py.split sep (a +:+ String sep rest) = a :: Py.split sep rest.
Proof.
  intros Ha. unfold Py.split. by rewrite split_go_piece, rev_rev_app.
Qed.

Lemma split_whole (sep : ascii) (a : string) :
  contains sep a = false → Py.split sep a = [a].
Proof.
  intros Ha. unfold Py.split. by rewrite split_go_whole, rev_rev_app.
Qed.

Lemma split_go_nonempty (sep : ascii) (cur s : string) :
  Py.split_go sep cur s ≠ [].
Proof.
  revert cur. induction s as [|c s IH]; intros cur; [done|].
  simpl. by destruct (Ascii.eqb c sep).
Qed.

Lemma last_split_go (sep : ascii) (cur dir file : string) :
  contains sep file = false →
  List.last (Py.split_go sep cur (dir +:+ String sep file)) "" = file.
Proof.
  intros Hfile. revert cur. induction dir as [|c dir IH]; intros cur.
  - rewrite (split_go_piece sep cur "" file) by done.
    rewrite split_go_whole, rev_rev_app by done. done.
  - change (String c dir +:+ String sep file)
      with (String c (dir +:+ String sep file)).
    simpl Py.split_go. destruct (Ascii.eqb c sep); [|apply IH].
    specialize (IH ""). pose proof (split_go_nonempty sep "" (dir +:+ String sep file)).
    destruct (Py.split_go sep "" (dir +:+ String sep file)); done.
Qed.

(** X12: [basename] keeps what follows the last slash, so the header names
    the source file without its directories: the header of [dir/file] is the
    header of [file]. A name without a slash is kept as it is. *)
Theorem header_without_directory (dir file : string) (blue : option string) :
  contains "/" file = false →
  Py.basename (dir +:+ String "/" file) = file
  ∧ Py.basename file = file
  ∧ header (dir +:+ String "/" file) blue = header file blue.
Proof.
  intros Hfile.
  assert (Py.basename (dir +:+ String "/" file) = file) as Hdir
    by (by apply last_split_go).
  assert (Py.basename file = file) as Hplain
    by (unfold Py.basename; by rewrite split_whole).
  repeat split; [done..|]. unfold header. by rewrite Hdir, Hplain.
Qed.

Lemma header_without_directory_witness :
  Py.basename ("/home/me/project" +:+ String "/" "requirements.in") =
    "requirements.in"
  ∧ Py.basename "requirements.in" = "requirements.in"
  ∧ header ("/home/me/project" +:+ String "/" "requirements.in") None =
    header "requirements.in" None.
Proof.
  apply (header_without_directory "/home/me/project" "requirements.in" None).
  reflexivity.
Defined.

(** X13: every message of the header starts with [#], and there are six of
    them, whatever the name of the source file. *)
Theorem header_is_comment (src_file : string) (blue : option string) :
  length (output_document (header src_file blue).1) = 6
  ∧ Forall (λ line, ∃ rest, line = String "#" rest)
      (output_document (header src_file blue).1)
  ∧ output_document (header src_file blue).1 = header_lines src_file.
Proof.
  split; [done|]. split; [|done].
  repeat constructor; eexists; reflexivity.
Qed.

(** X14: only the first two components of the version are read. What
    follows the second dot is never parsed: it may hold anything. *)
Theorem later_components_ignored (major minor rest : string) :
  contains "." major = false →
  contains "." minor = false →
  Version.version_tuple (major +:+ String "." (minor +:+ String "." rest)) =
  Version.version_tuple (major +:+ String "." minor).
Proof.
  intros Hmajor Hminor. unfold Version.version_tuple.
  rewrite (split_piece "." major (minor +:+ String "." rest)) by done.
  rewrite (split_piece "." minor rest), (split_piece "." major minor) by done.
  rewrite (split_whole "." minor) by done.
  pose proof (split_go_nonempty "." "" rest) as Hne. unfold Py.split.
  by destruct (Py.split_go "." "" rest).
Qed.

Lemma later_components_ignored_witness :
  Version.version_tuple ("6" +:+ String "." ("1" +:+ String "." "dev0+rc")) =
  Version.version_tuple ("6" +:+ String "." "1").
Proof. apply (later_components_ignored "6" "1" "dev0+rc"); reflexivity. Defined.

(** X15: a version of one component only is a tuple of length one, which is
    below (6, 1) up to and including 6: pip [6] is refused and pip [7] is
    accepted. *)
Theorem single_component_version (version : string) (w : Collaborators)
    (o : Options) (major : Z) :
  Version.version_tuple version = Some [major] →
  main version w o =
  if (major <=? 6)%Z
  then ([EPrint (Version.upgrade_message version)], Exited 4)
  else cli w o.
Proof.
  intros Hv. unfold main. rewrite Hv.
  destruct (Version.tuple_geb [major] [6; 1]%Z) eqn:Hgeb.
  - destruct (Z.leb_spec major 6) as [Hle|]; [|done].
    apply tuple_geb_single in Hle. congruence.
  - apply tuple_geb_single in Hgeb.
    by destruct (Z.leb_spec major 6) as [|Hgt]; [|lia].
Qed.

Lemma single_component_version_witness :
  let w := sample_world (inr ([django], sample_cache)) [] in
  main "6" w (sample_options false) =
  ([EPrint (Version.upgrade_message "6")], Exited 4).
Proof.
  intros w. apply (single_component_version "6" w (sample_options false) 6).
  reflexivity.
Defined.

(** X16: a version whose first component is empty (the empty string, or one
    that starts with a dot) makes [int] fail: the module raises [ValueError]
    and neither prints the upgrade message nor runs the command. *)
Theorem empty_component_raises (rest : string) (w : Collaborators)
    (o : Options) :
  main "" w o = ([], Raised (ValueError ""))
  ∧ main (String "." rest) w o = ([], Raised (ValueError (String "." rest))).
Proof.
  split; [done|]. unfold main, Version.version_tuple.
  pose proof (split_piece "." "" rest eq_refl) as Hsplit.
  change ("" +:+ String "."%char rest) with (String "."%char rest) in Hsplit.
  rewrite Hsplit.
  pose proof (split_go_nonempty "." "" rest) as Hne. unfold Py.split.
  by destruct (Py.split_go "." "" rest).
Qed.

(** ** The verbose flag (lines 43, 89) *)

Lemma same_plain_refl {A} (m : Run A) : same_plain m m.
Proof. done. Qed.

Lemma same_plain_bind {A B} (m m' : Run A) (k k' : A → Run B) :
  same_plain m m' → (∀ a, same_plain (k a) (k' a)) →
  same_plain (m ≫= k) (m' ≫= k').
Proof.
  intros [Ht Ho] Hk. unfold same_plain, mbind, Run_bind. rewrite <-Ho.
  destruct (m.2) as [a| |]; simpl; [|done..].
  destruct (Hk a) as [Hkt Hko]. by rewrite !fmap_app, Ht, Hkt.
Qed.

Lemma same_plain_for {A} (l : list A) (body body' : A → Run unit) :
  (∀ x, same_plain (body x) (body' x)) →
  same_plain (for_ l body) (for_ l body').
Proof.
  intros Hb. induction l as [|x l IH]; [done|]. simpl.
  by apply same_plain_bind.
Qed.

Lemma same_plain_when (b : bool) (m m' : Run unit) :
  same_plain m m' → same_plain (when b m) (when b m').
Proof. by destruct b. Qed.

Lemma same_plain_emit (e e' : Event) :
  plain e = plain e' → same_plain (emit e) (emit e').
Proof. intros He. split; [|done]. simpl. by rewrite He. Qed.

Ltac same_plain :=
  repeat first
    [ apply same_plain_emit; reflexivity
    | apply same_plain_when
    | apply same_plain_for; intros ?
    | apply same_plain_bind; [|intros ?] ];
  try apply same_plain_refl.

(** X19: the verbose flag changes the flag of the logger and the colour of
    the messages, and nothing else: the same messages are logged at the same
    levels and in the same order, the same stages run, and the run ends the
    same way. *)
Theorem verbose_only_colours (b : bool) (w : Collaborators) (o : Options) :
  plain <$> (cli w (set_verbose b o)).1 = plain <$> (cli w o).1
  ∧ (cli w (set_verbose b o)).2 = (cli w o).2.
Proof.
  change (same_plain (cli w (set_verbose b o)) (cli w o)).
  unfold cli. apply same_plain_bind; [|intros finder].
  - unfold setup. cbn [set_verbose verbose src_file]. same_plain.
  - apply same_plain_bind; [apply same_plain_refl|intros constraints].
    apply same_plain_bind; [apply same_plain_refl|intros resolved].
    unfold render, header, log_info.
    cbn [set_verbose verbose no_header annotate dry_run src_file].
    same_plain.
Qed.

(** ** The colour of the messages (lines 89-102, 140) *)

Lemma coloured_bind {A B} (v : bool) (m : Run A) (k : A → Run B) :
  Forall (coloured v) m.1 → (∀ a, Forall (coloured v) (k a).1) →
  Forall (coloured v) (m ≫= k).1.
Proof.
  intros Hm Hk. unfold mbind, Run_bind.
  destruct m as [t [a| |]]; simpl in *; [|done..].
  apply Forall_app. split; [done|apply Hk].
Qed.

Lemma coloured_for {A} (v : bool) (l : list A) (body : A → Run unit) :
  (∀ x, Forall (coloured v) (body x).1) → Forall (coloured v) (for_ l body).1.
Proof.
  intros Hb. induction l as [|x l IH]; [constructor|]. simpl.
  by apply coloured_bind.
Qed.

Lemma coloured_when (v b : bool) (m : Run unit) :
  Forall (coloured v) m.1 → Forall (coloured v) (when b m).1.
Proof. destruct b; [done|]. intros _. constructor. Qed.

Ltac coloured :=
  repeat first
    [ apply coloured_bind; [|intros ?]
    | apply coloured_for; intros ?
    | apply coloured_when
    | by repeat constructor ].

(** X20: [log.info] messages are logged in blue exactly when [verbose] is
    set; warnings, errors and debug messages are logged without a colour of
    their own. *)
Theorem messages_coloured (w : Collaborators) (o : Options) :
  Forall (coloured (verbose o)) (cli w o).1.
Proof.
  unfold cli. apply coloured_bind; [|intros finder].
  { unfold setup, log_debug, log_warning, call, sys_exit. coloured. }
  apply coloured_bind; [|intros constraints].
  { rewrite collect_eq. by repeat constructor. }
  apply coloured_bind; [|intros resolved].
  { rewrite resolving_eq.
    destruct (resolve _ _ _ _ _) as [[]|]; by repeat constructor. }
  unfold render, header, log_debug, log_info, log_warning, call.
  destruct (annotate o); coloured.
Qed.

(** ** Every requirement has its line (lines 134-140) *)

(** X21: no resolved requirement is dropped or rendered twice: after the
    header and the index directives the document holds, up to the order,
    one line for each element of the resolved set. *)
Theorem requirements_rendered_once (w : Collaborators) (o : Options)
    (finder : Finder) (results : list InstallRequirement)
    (cache : DependencyCache) :
  ∃ lines,
    output_document (render w o finder results cache).1 =
      (if no_header o then [] else header_lines (src_file o)) ++
      index_directive_lines (DEFAULT_INDEX_URL w) (finder_index_urls finder) ++
      lines
    ∧ lines ≡ₚ
      (λ r, format_requirement w r
              (annotation_of
                 (if annotate o
                  then Some (reverse_dependencies w cache results)
                  else None) r)) <$> results.
Proof.
  destruct (render_run w o finder results cache) as (_ & Hout & _).
  eexists. split; [exact Hout|].
  apply fmap_Permutation, sorted_Permutation.
Qed.

Lemma recent_pip_runs_witness :
  let w := sample_world (inr ([django; toolbar], sample_cache)) [] in
  main "6.1.1" w (sample_options true) = cli w (sample_options true).
Proof.
  intros w. apply (recent_pip_runs "6.1.1" w (sample_options true) 6 1);
    [reflexivity | lia].
Defined.
